(** * Memory layout notebook (doc/notebooks/memory_layout.ipynb)

    The notebook draws two datasets of two-dimensional samples, one stored
    sample after sample (shape N x 2) and one stored coordinate after
    coordinate (shape 2 x N), defines three cost functions over them and
    times a minimisation of each.

    Numbers.  The notebook computes in float64; here every float is a real
    number of [R], so rounding is left out and "equal within floating-point
    tolerance" reads as equality of reals.

    Arrays.  A numpy array is a flat buffer with a shape and strides, as
    numpy has it: [xy.T] is a view on the same buffer with shape and
    strides swapped.

    State.  The code cells run against the kernel's global names [rng],
    [xy1], [xy2] and [cost3]; a cell or a function is a computation in a
    state and error monad over these names. *)

From Stdlib Require Import Reals Lra Lia List ZArith Bool Arith.
Import ListNotations.

(** ** numpy: arrays, sums, random generator *)

Module Numpy.

Record ndarray : Type := mk_ndarray {
  buffer : list R;
  shape : nat * nat;
  strides : nat * nat          (* counted in elements, not bytes *)
}.

(** [a[i, j]]: the element [i * strides[0] + j * strides[1]] of the
    buffer.  numpy raises IndexError outside of the shape; every access
    below stays inside it. *)
Definition item (a : ndarray) (i j : nat) : R :=
  nth (i * fst (strides a) + j * snd (strides a)) (buffer a) 0%R.

(** A freshly allocated array is C-contiguous: rows follow one another. *)
Definition c_contiguous (buf : list R) (size : nat * nat) : ndarray :=
  {| buffer := buf; shape := size; strides := (snd size, 1) |}.

Definition swap (p : nat * nat) : nat * nat := (snd p, fst p).

(** [a.T]: same buffer, axes exchanged. *)
Definition T (a : ndarray) : ndarray :=
  {| buffer := buffer a; shape := swap (shape a); strides := swap (strides a) |}.

(** [np.sum] of a one-dimensional array. *)
Definition sum (v : list R) : R := fold_right Rplus 0%R v.

(** [np.random.Generator]: [default_rng seed] builds the state of the
    bit generator from the seed, and every standard normal variate drawn
    advances it.  The bit generator (PCG64) and the sampling method are
    numpy's; they are an interface here. *)
Class BitGenerator : Type := {
  rng_state : Type;
  default_rng : Z -> rng_state;
  next_normal : rng_state -> R * rng_state
}.

Section Generator.
Context {G : BitGenerator}.

(** [k] variates in the order they are drawn. *)
Fixpoint draws (k : nat) (st : rng_state) : list R * rng_state :=
  match k with
  | O => ([], st)
  | S k' =>
      let (v, st1) := next_normal st in
      let (vs, st2) := draws k' st1 in
      (v :: vs, st2)
  end.

(** [rng.normal(size=(n, m))]: a new C-contiguous array filled in
    storage order with the next [n * m] variates. *)
Definition normal (size : nat * nat) (st : rng_state) : ndarray * rng_state :=
  let (vs, st') := draws (fst size * snd size) st in
  (c_contiguous vs size, st').

(** State of the generator after [k] draws and the variate number [k]
    (counted from 0) of a generator in state [st]. *)
Fixpoint advance (k : nat) (st : rng_state) : rng_state :=
  match k with
  | O => st
  | S k' => advance k' (snd (next_normal st))
  end.

Definition variate (st : rng_state) (k : nat) : R :=
  fst (next_normal (advance k st)).

End Generator.

End Numpy.

(** ** scipy.stats.multivariate_normal *)

Module Scipy.
Import Numpy.

Definition LOG_2PI : R := ln (2 * PI).

(** Squared Mahalanobis distance of row [i] of [x] to [mean].  With the
    default [cov=1] the covariance is the identity matrix of the
    dimension of [mean]: whitening leaves the deviations as they are. *)
Definition maha (x : ndarray) (mean : list R) (i : nat) : R :=
  sum (map (fun j => Rsqr (item x i j - nth j mean 0%R)) (seq 0 (length mean))).

(** [multivariate_normal.logpdf(x, mean)] for [x] of shape (n, d) and
    [mean] of length d: one value per row,
    [-0.5 * (rank * log(2 pi) + log_pdet + maha)], where the identity
    covariance has rank d and log pseudo-determinant 0. *)
Definition multivariate_normal_logpdf (x : ndarray) (mean : list R) : list R :=
  map (fun i => (- (1 / 2) * (INR (length mean) * LOG_2PI + 0 + maha x mean i))%R)
      (seq 0 (fst (shape x))).

End Scipy.

(** ** The kernel's global names and the monad of cell code *)

Module Kernel.
Import Numpy.

Section Globals.
Context {G : BitGenerator}.

(** The global names the notebook binds.  A name that is not bound yet
    is [None].  [g_cost3] stands for the wrapper object bound to
    [cost3]: it is represented by the array the wrapper keeps. *)
Record globals : Type := mk_globals {
  g_rng : option rng_state;
  g_xy1 : option ndarray;
  g_xy2 : option ndarray;
  g_cost3 : option ndarray
}.

Definition fresh : globals :=
  {| g_rng := None; g_xy1 := None; g_xy2 := None; g_cost3 := None |}.

(** State and error: [None] is an exception (NameError on a name that
    is not bound). *)
Definition M (A : Type) : Type := globals -> option (A * globals).

Definition ret {A : Type} (a : A) : M A := fun w => Some (a, w).

Definition bind {A B : Type} (m : M A) (k : A -> M B) : M B :=
  fun w => match m w with
           | Some (a, w') => k a w'
           | None => None
           end.

Definition lookup {A : Type} (name : globals -> option A) : M A :=
  fun w => match name w with
           | Some a => Some (a, w)
           | None => None
           end.

Definition assign_rng (st : rng_state) : M unit :=
  fun w => Some (tt, {| g_rng := Some st; g_xy1 := g_xy1 w;
                        g_xy2 := g_xy2 w; g_cost3 := g_cost3 w |}).

Definition assign_xy1 (a : ndarray) : M unit :=
  fun w => Some (tt, {| g_rng := g_rng w; g_xy1 := Some a;
                        g_xy2 := g_xy2 w; g_cost3 := g_cost3 w |}).

Definition assign_xy2 (a : ndarray) : M unit :=
  fun w => Some (tt, {| g_rng := g_rng w; g_xy1 := g_xy1 w;
                        g_xy2 := Some a; g_cost3 := g_cost3 w |}).

Definition assign_cost3 (a : ndarray) : M unit :=
  fun w => Some (tt, {| g_rng := g_rng w; g_xy1 := g_xy1 w;
                        g_xy2 := g_xy2 w; g_cost3 := Some a |}).

(** [rng.normal(size=...)]: the generator object bound to [rng] is
    advanced in place. *)
Definition rng_normal (size : nat * nat) : M ndarray :=
  bind (lookup g_rng) (fun st =>
    let (a, st') := normal size st in
    bind (assign_rng st') (fun _ => ret a)).

End Globals.

Declare Scope kernel_scope.
Delimit Scope kernel_scope with kernel.
Notation "x <- m ;; k" := (bind m (fun x => k))
  (at level 61, m at next level, right associativity) : kernel_scope.
Notation "m ;; k" := (bind m (fun _ => k))
  (at level 61, right associativity) : kernel_scope.

End Kernel.

(** ** iminuit: cost functions and the minimiser *)

Module Iminuit.
Import Numpy Kernel.
Local Open Scope kernel_scope.

(** [Minuit.LIKELIHOOD] and [Minuit.LEAST_SQUARES]: the two values of the
    [errordef] attribute. *)
Inductive errordef_t : Type := LIKELIHOOD | LEAST_SQUARES.

(** What a cost function with the given flag is a multiple of: the
    likelihood convention stands for a plain negative log-likelihood,
    the least-squares convention for twice one. *)
Definition nll_scale (e : errordef_t) : R :=
  match e with
  | LIKELIHOOD => 1
  | LEAST_SQUARES => 2
  end.

Section Cost.
Context {G : BitGenerator}.

(** A callable of two parameters with its [errordef] attribute. *)
Record cost_function : Type := mk_cost {
  call : R -> R -> M R;
  errordef : errordef_t
}.

(** Modelled from the spec: the class [iminuit.cost.UnbinnedNLL] is not
    part of the sources.  Called with [log=True] it takes a pointwise
    log-density function and aggregates it over the data it was given
    into a total negative log-likelihood, and it carries the error-scale
    flag that tells the minimiser whether the value is a plain negative
    log-likelihood or twice one.  Which of the two conventions the class
    follows is fixed inside the class; it is the parameter [convention]
    here.  The object keeps the array it was given. *)
Definition UnbinnedNLL (convention : errordef_t) (data : ndarray)
    (model : ndarray -> R -> R -> list R) : cost_function :=
  {| call := fun x y => ret (nll_scale convention * - sum (model data x y))%R;
     errordef := convention |}.

(** Modelled from the spec: [iminuit.Minuit] and its method [migrad]
    are not part of the sources.  The minimiser is an opaque solver: from
    the initial guess and the error-scale flag it chooses the points at
    which it evaluates the cost function, one after the other, each
    choice depending on the values seen so far, until it stops (it has
    converged or given up) and returns its fitted parameters.  Calling
    the cost function is the only way it touches the notebook. *)
Record solver : Type := mk_solver {
  solver_state : Type;
  start : R -> R -> errordef_t -> solver_state;
  next_point : solver_state -> option (R * R);
  observe : solver_state -> R -> solver_state;
  fitted : solver_state -> R * R
}.

Fixpoint migrad_loop (S_ : solver) (ncall : nat) (f : cost_function)
    (s : solver_state S_) : M (R * R) :=
  match ncall with
  | O => ret (fitted S_ s)
  | S ncall' =>
      match next_point S_ s with
      | None => ret (fitted S_ s)
      | Some (x, y) =>
          v <- call f x y ;;
          migrad_loop S_ ncall' f (observe S_ s v)
      end
  end.

(** [Minuit(f, x=x0, y=y0).migrad()] with a budget of [ncall]
    evaluations. *)
Definition migrad (S_ : solver) (ncall : nat) (f : cost_function)
    (x0 y0 : R) : M (R * R) :=
  migrad_loop S_ ncall f (start S_ x0 y0 (errordef f)).

End Cost.

End Iminuit.

(** ** IPython: the timeit cell magic *)

Module IPython.
Import Numpy Kernel.

(** [TimeitResult.average] and [TimeitResult.stdev]. *)
Definition mean (ts : list R) : R := (sum ts / INR (length ts))%R.

Definition stdev (ts : list R) : R :=
  sqrt (sum (map (fun t => Rsqr (t - mean ts)) ts) / INR (length ts)).

Section Timeit.
Context {G : BitGenerator}.

(** Wall-clock time is not decided by the program: [duration k] is the
    time the execution number [k] of a timed body takes. *)
Variable duration : nat -> R.

Record session : Type := mk_session {
  user_ns : globals;
  wall_clock : R;
  executed : nat            (* executions of timed bodies so far *)
}.

Definition exec_body (body : M unit) (s : session) : option session :=
  match body (user_ns s) with
  | Some (_, w') =>
      Some {| user_ns := w';
              wall_clock := wall_clock s + duration (executed s);
              executed := S (executed s) |}
  | None => None
  end.

(** One run: the body [number] times in a loop. *)
Fixpoint loop (number : nat) (body : M unit) (s : session) : option session :=
  match number with
  | O => Some s
  | S k =>
      match exec_body body s with
      | Some s' => loop k body s'
      | None => None
      end
  end.

(** [timer.repeat(repeat, number)]: the elapsed time of every run. *)
Fixpoint repeat_runs (repeat number : nat) (body : M unit) (s : session)
    : option (list R * session) :=
  match repeat with
  | O => Some ([], s)
  | S r =>
      match loop number body s with
      | Some s1 =>
          match repeat_runs r number body s1 with
          | Some (ts, s2) => Some ((wall_clock s1 - wall_clock s)%R :: ts, s2)
          | None => None
          end
      | None => None
      end
  end.

(** [%%timeit -n number -r repeat]: no setup line, the whole cell is the
    timed body; the report is the mean and the standard deviation of
    the time per loop over the runs. *)
Definition timeit (number repeat : nat) (body : M unit) (s : session)
    : option ((R * R) * session) :=
  match repeat_runs repeat number body s with
  | Some (all_runs, s') =>
      let timings := map (fun dt => (dt / INR number)%R) all_runs in
      Some ((mean timings, stdev timings), s')
  | None => None
  end.

End Timeit.

End IPython.

(** ** The notebook *)

Module Notebook.
Import Numpy Scipy Kernel Iminuit IPython.
Local Open Scope kernel_scope.

(** The constants of the first cell. *)
Definition seed : Z := 1.
Definition n_samples : nat := N.to_nat 1000000.

Inductive layout : Type := Interleaved | Grouped.

Section Cells.
Context {G : BitGenerator}.

(** The convention [UnbinnedNLL] follows (see [Iminuit.UnbinnedNLL]). *)
Variable convention : errordef_t.

Definition cost1 : cost_function :=
  {| call := fun x y =>
       xy1 <- lookup g_xy1 ;;
       ret (- sum (multivariate_normal_logpdf xy1 [x; y]))%R;
     errordef := LIKELIHOOD |}.

Definition cost2 : cost_function :=
  {| call := fun x y =>
       xy2 <- lookup g_xy2 ;;
       ret (- sum (multivariate_normal_logpdf (T xy2) [x; y]))%R;
     errordef := LIKELIHOOD |}.

Definition logpdf (xy : ndarray) (x y : R) : list R :=
  multivariate_normal_logpdf (T xy) [x; y].

(** [cost3]: calling it calls the wrapper object the first cell built,
    [UnbinnedNLL(xy2, logpdf, log=True)]; its flag is the wrapper's. *)
Definition cost3 : cost_function :=
  {| call := fun x y =>
       data <- lookup g_cost3 ;;
       call (UnbinnedNLL convention data logpdf) x y;
     errordef := convention |}.

(** First cell, for a seed [sd] and [n] samples: the generator, the two
    datasets and the wrapper built over [xy2]. *)
Definition cell_1 (sd : Z) (n : nat) : M unit :=
  assign_rng (default_rng sd) ;;
  a <- rng_normal (n, 2) ;;
  assign_xy1 a ;;
  b <- rng_normal (2, n) ;;
  assign_xy2 b ;;
  xy2 <- lookup g_xy2 ;;
  assign_cost3 xy2.

(** The dataset of a layout, and the generator of section 4.1 of the
    specification: run the first cell and take the dataset. *)
Definition dataset (l : layout) (w : globals) : option ndarray :=
  match l with
  | Interleaved => g_xy1 w
  | Grouped => g_xy2 w
  end.

Definition generate (sd : Z) (n : nat) (l : layout) (w : globals)
    : option ndarray :=
  match cell_1 sd n w with
  | Some (_, w') => dataset l w'
  | None => None
  end.

(** Body of the timed cells: [m = Minuit(f, x=0, y=0); m.migrad()]. *)
Variable S_ : solver.
Variable ncall : nat.

Definition fit (f : cost_function) : M unit :=
  _ <- migrad S_ ncall f 0 0 ;; ret tt.

Variable duration : nat -> R.

(** The three cells under [%%timeit -n 1 -r 1]. *)
Definition cell_2 : session -> option ((R * R) * session) :=
  timeit duration 1 1 (fit cost1).
Definition cell_3 : session -> option ((R * R) * session) :=
  timeit duration 1 1 (fit cost2).
Definition cell_4 : session -> option ((R * R) * session) :=
  timeit duration 1 1 (fit cost3).

End Cells.

End Notebook.

(** ** The cost function as the specification words it *)

Module Spec.
Import Numpy.

(** Density at the point [p] of the normal distribution on the plane with
    unit covariance and centre [(x, y)]. *)
Definition mvn_pdf (x y : R) (p : R * R) : R :=
  (/ (2 * PI) * exp (- (Rsqr (fst p - x) + Rsqr (snd p - y)) / 2))%R.

Definition log_density (x y : R) (p : R * R) : R := ln (mvn_pdf x y p).

(** The negative summed log-density of the samples. *)
Definition negative_log_likelihood (samples : list (R * R)) (x y : R) : R :=
  (- sum (map (log_density x y) samples))%R.

(** The samples a dataset holds: sample [i] is row [i] of an interleaved
    array and column [i] of a grouped one. *)
Definition samples_interleaved (a : ndarray) : list (R * R) :=
  map (fun i => (item a i 0, item a i 1)) (seq 0 (fst (shape a))).

Definition samples_grouped (a : ndarray) : list (R * R) :=
  map (fun i => (item a 0 i, item a 1 i)) (seq 0 (snd (shape a))).

End Spec.

(** ** Concrete generators and solvers, to run the model on *)

Module Instances.
Import Numpy Kernel Iminuit.

(** A generator whose variate number [k] is [k]. *)
Definition counter_rng : BitGenerator :=
  {| rng_state := nat;
     default_rng := fun _ => O;
     next_normal := fun k => (INR k, S k) |}.

(** A generator whose first [t] variates are 0 and whose later ones
    are 1. *)
Definition step_rng (t : nat) : BitGenerator :=
  {| rng_state := nat;
     default_rng := fun _ => O;
     next_normal := fun k => ((if k <? t then 0 else 1)%R, S k) |}.

(** A solver that evaluates the cost function at its initial guess and
    then at the point one unit to the right, and stops. *)
Definition two_point_solver : solver :=
  {| solver_state := list (R * R) * list R;
     start := fun x0 y0 _ => ([(x0, y0); ((x0 + 1)%R, y0)], []);
     next_point := fun s => hd_error (fst s);
     observe := fun s v => (tl (fst s), v :: snd s);
     fitted := fun _ => (0%R, 0%R) |}.

End Instances.

(** ** Notions the properties are stated with *)

Module Notions.
Import Numpy Kernel Iminuit IPython Notebook Spec Instances.

Section Predicates.
Context {G : BitGenerator}.

(** The cost function returns the negative log-likelihood of the samples,
    or twice that. *)
Definition returns_plain (f : cost_function) (samples : list (R * R))
    (w : globals) : Prop :=
  forall x y, call f x y w = Some (negative_log_likelihood samples x y, w).

Definition returns_twice (f : cost_function) (samples : list (R * R))
    (w : globals) : Prop :=
  forall x y, call f x y w = Some ((2 * negative_log_likelihood samples x y)%R, w).

(** The flag of a cost function agrees with what it computes over the
    samples: under the likelihood convention it returns their negative
    log-likelihood, under the least-squares convention twice that. *)
Definition flag_consistent (f : cost_function) (samples : list (R * R))
    (w : globals) : Prop :=
  match errordef f with
  | LIKELIHOOD => returns_plain f samples w
  | LEAST_SQUARES => returns_twice f samples w
  end.

(** [(x, y)] minimises the cost function in the state [w]. *)
Definition minimises (f : cost_function) (w : globals) (x y : R) : Prop :=
  exists v, call f x y w = Some (v, w) /\
    forall x' y', exists v', call f x' y' w = Some (v', w) /\ (v <= v')%R.

(** Mean of the samples, coordinate by coordinate. *)
Definition sample_mean (samples : list (R * R)) : R * R :=
  ((sum (map fst samples) / INR (length samples))%R,
   (sum (map snd samples) / INR (length samples))%R).

(** The two datasets hold the same [n] samples. *)
Definition same_samples (n : nat) (a g : ndarray) : Prop :=
  forall i j, i < n -> j < 2 -> item a i j = item g j i.

End Predicates.

(** Two samples, (1, 2) and (3, 4), in both layouts, bound in a kernel
    whose generator is [counter_rng]. *)
Definition two_samples_interleaved : ndarray := c_contiguous [1; 2; 3; 4]%R (2, 2).
Definition two_samples_grouped : ndarray := c_contiguous [1; 3; 2; 4]%R (2, 2).

Definition two_samples_kernel : @globals counter_rng :=
  @mk_globals counter_rng (Some 8) (Some two_samples_interleaved)
    (Some two_samples_grouped) (Some two_samples_grouped).

(** Cells run one after the other in one session: the reports of the
    cells, in order, and the session they leave.  A cell that raises stops
    the run. *)
Fixpoint run_cells {G : BitGenerator}
    (cells : list (session -> option ((R * R) * session))) (s : session)
    : option (list (R * R) * session) :=
  match cells with
  | [] => Some ([], s)
  | cell :: rest =>
      match cell s with
      | Some (r, s1) =>
          match run_cells rest s1 with
          | Some (rs, s2) => Some (r :: rs, s2)
          | None => None
          end
      | None => None
      end
  end.

End Notions.

(** * Properties *)

Import Numpy Scipy Kernel Iminuit IPython Notebook Spec Instances Notions.
Local Open Scope kernel_scope.

(** ** Sums and arrays *)

Lemma sum_map_const (f : nat -> R) (c : R) (l : list nat) :
  (forall i, In i l -> f i = c) -> sum (map f l) = (INR (length l) * c)%R.
Proof.
  induction l as [|i l IH]; intros H.
  - simpl. lra.
  - change (sum (map f (i :: l))) with (f i + sum (map f l))%R.
    rewrite IH by (intros j Hj; apply H; right; exact Hj).
    rewrite (H i) by (left; reflexivity).
    change (length (i :: l)) with (S (length l)). rewrite S_INR. lra.
Qed.

Lemma sum_cons (t : R) (v : list R) : sum (t :: v) = (t + sum v)%R.
Proof. reflexivity. Qed.

Lemma nth_map_seq (f : nat -> R) (len k : nat) :
  k < len -> nth k (map f (seq 0 len)) 0%R = f k.
Proof.
  intros Hk.
  rewrite (nth_indep _ 0%R (f 0)) by (rewrite length_map, length_seq; exact Hk).
  rewrite map_nth, seq_nth by exact Hk. reflexivity.
Qed.

Lemma item_c_contiguous (f : nat -> R) (n m i j : nat) :
  i < n -> j < m ->
  item (c_contiguous (map f (seq 0 (n * m))) (n, m)) i j = f (i * m + j).
Proof.
  intros Hi Hj. unfold item, c_contiguous. simpl.
  rewrite Nat.mul_1_r. apply nth_map_seq. nia.
Qed.

Lemma item_T (a : ndarray) (i j : nat) : item (T a) i j = item a j i.
Proof.
  unfold item, T, swap. simpl. rewrite Nat.add_comm. reflexivity.
Qed.

Lemma shape_T (a : ndarray) : shape (T a) = (snd (shape a), fst (shape a)).
Proof. reflexivity. Qed.

(** ** The generator *)

Section GeneratorFacts.
Context {G : BitGenerator}.

Lemma advance_add (a b : nat) (st : rng_state) :
  advance (a + b) st = advance b (advance a st).
Proof.
  revert st. induction a as [|a IH]; intros st.
  - reflexivity.
  - simpl. apply IH.
Qed.

Lemma variate_advance (a k : nat) (st : rng_state) :
  variate (advance a st) k = variate st (a + k).
Proof.
  unfold variate. rewrite advance_add. reflexivity.
Qed.

(** Drawing [k] variates yields the next [k] variates of the stream and
    leaves the generator [k] steps further. *)
Lemma draws_spec (k : nat) (st : rng_state) :
  draws k st = (map (variate st) (seq 0 k), advance k st).
Proof.
  revert st. induction k as [|k IH]; intros st.
  - reflexivity.
  - simpl. destruct (next_normal st) as [v st1] eqn:E.
    rewrite IH. rewrite <- seq_shift, map_map.
    unfold variate at 2. simpl. rewrite E. simpl.
    f_equal. f_equal.
    apply map_ext. intros j. unfold variate. simpl. rewrite E. reflexivity.
Qed.

Lemma normal_spec (n m : nat) (st : rng_state) :
  normal (n, m) st =
  (c_contiguous (map (variate st) (seq 0 (n * m))) (n, m), advance (n * m) st).
Proof.
  unfold normal. simpl fst. simpl snd. rewrite draws_spec. reflexivity.
Qed.

End GeneratorFacts.

(** ** The first cell *)

Section CellFacts.
Context {G : BitGenerator}.

(** The state the first cell leaves, whatever state it starts in. *)
Lemma cell_1_spec (sd : Z) (n : nat) (w : globals) :
  let st := default_rng sd in
  let g := c_contiguous (map (variate (advance (n * 2) st)) (seq 0 (2 * n))) (2, n) in
  cell_1 sd n w =
  Some (tt, {| g_rng := Some (advance (2 * n) (advance (n * 2) st));
               g_xy1 := Some (c_contiguous (map (variate st) (seq 0 (n * 2))) (n, 2));
               g_xy2 := Some g;
               g_cost3 := Some g |}).
Proof.
  intros st g. unfold cell_1, rng_normal, bind, lookup, assign_rng. cbn [g_rng].
  rewrite normal_spec. cbn [g_rng g_xy1 g_xy2 g_cost3 assign_xy1 ret].
  rewrite normal_spec. reflexivity.
Qed.

(** The first cell always runs; it binds the two datasets and the wrapper
    over [xy2], and the elements of the datasets are consecutive variates
    of the seeded generator. *)
Lemma cell_1_runs (sd : Z) (n : nat) (w0 : globals) :
  exists w a g,
    cell_1 sd n w0 = Some (tt, w) /\
    g_xy1 w = Some a /\ g_xy2 w = Some g /\ g_cost3 w = Some g /\
    shape a = (n, 2) /\ shape g = (2, n) /\
    (forall i j, i < n -> j < 2 ->
       item a i j = variate (default_rng sd) (2 * i + j) /\
       item g j i = variate (default_rng sd) (2 * n + j * n + i)).
Proof.
  eexists. eexists. eexists. split; [apply cell_1_spec |].
  cbn [g_xy1 g_xy2 g_cost3]. repeat split.
  - rewrite item_c_contiguous by assumption. f_equal. lia.
  - rewrite item_c_contiguous by assumption. rewrite variate_advance. f_equal. lia.
Qed.

End CellFacts.

(** ** The cost functions *)

Lemma two_pi_pos : (0 < 2 * PI)%R.
Proof. pose proof PI_RGT_0. lra. Qed.

Lemma log_density_value (x y : R) (p : R * R) :
  log_density x y p = (- LOG_2PI - (Rsqr (fst p - x) + Rsqr (snd p - y)) / 2)%R.
Proof.
  unfold log_density, mvn_pdf. rewrite ln_mult.
  - rewrite ln_Rinv by apply two_pi_pos. rewrite ln_exp. unfold LOG_2PI. lra.
  - apply Rinv_0_lt_compat, two_pi_pos.
  - apply exp_pos.
Qed.

(** scipy's formula, at a mean of length two, is the logarithm of the
    density of the specification. *)
Lemma logpdf_log_density (a : ndarray) (x y : R) (i : nat) :
  (- (1 / 2) * (INR (length [x; y]) * LOG_2PI + 0 + maha a [x; y] i))%R =
  log_density x y (item a i 0, item a i 1).
Proof.
  rewrite log_density_value. unfold maha.
  cbn [length seq map sum fold_right nth fst snd].
  change (INR 2) with (1 + 1)%R. lra.
Qed.

Lemma logpdf_samples_interleaved (a : ndarray) (x y : R) :
  multivariate_normal_logpdf a [x; y] = map (log_density x y) (samples_interleaved a).
Proof.
  unfold multivariate_normal_logpdf, samples_interleaved. rewrite map_map.
  apply map_ext. intros i. apply logpdf_log_density.
Qed.

Lemma logpdf_samples_grouped (g : ndarray) (x y : R) :
  multivariate_normal_logpdf (T g) [x; y] = map (log_density x y) (samples_grouped g).
Proof.
  unfold multivariate_normal_logpdf, samples_grouped. rewrite map_map.
  rewrite shape_T. cbn [fst].
  apply map_ext. intros i. rewrite logpdf_log_density, !item_T. reflexivity.
Qed.

Section CostFacts.
Context {G : BitGenerator}.

Lemma cost1_value (w : globals) (a : ndarray) (x y : R) :
  g_xy1 w = Some a ->
  call cost1 x y w = Some (negative_log_likelihood (samples_interleaved a) x y, w).
Proof.
  intros H. unfold cost1, call, bind, lookup, ret. rewrite H.
  rewrite logpdf_samples_interleaved. reflexivity.
Qed.

Lemma cost2_value (w : globals) (g : ndarray) (x y : R) :
  g_xy2 w = Some g ->
  call cost2 x y w = Some (negative_log_likelihood (samples_grouped g) x y, w).
Proof.
  intros H. unfold cost2, call, bind, lookup, ret. rewrite H.
  rewrite logpdf_samples_grouped. reflexivity.
Qed.

Lemma cost3_value (c : errordef_t) (w : globals) (g : ndarray) (x y : R) :
  g_cost3 w = Some g ->
  call (cost3 c) x y w =
  Some ((nll_scale c * negative_log_likelihood (samples_grouped g) x y)%R, w).
Proof.
  intros H. unfold cost3, UnbinnedNLL, logpdf, call, bind, lookup, ret. rewrite H.
  rewrite logpdf_samples_grouped. reflexivity.
Qed.

End CostFacts.

(** C4.  For every pair of parameters and every dataset of [n] samples in
    the plane, stored interleaved (shape n x 2) or grouped (shape 2 x n),
    the hand-written cost function of that layout returns the negated sum,
    over the [n] samples, of the logarithm of the density of the normal
    distribution with unit covariance centred at the parameters, and leaves
    the kernel's state as it is. *)
Theorem handwritten_costs_are_negative_log_likelihoods
    {G : BitGenerator} (n : nat) (a g : ndarray) (x y : R) (w : globals) :
  shape a = (n, 2) -> shape g = (2, n) ->
  g_xy1 w = Some a -> g_xy2 w = Some g ->
  call cost1 x y w = Some (negative_log_likelihood (samples_interleaved a) x y, w) /\
  call cost2 x y w = Some (negative_log_likelihood (samples_grouped g) x y, w) /\
  length (samples_interleaved a) = n /\
  length (samples_grouped g) = n.
Proof.
  intros Ha Hg H1 H2.
  split; [apply cost1_value; exact H1 |].
  split; [apply cost2_value; exact H2 |].
  unfold samples_interleaved, samples_grouped.
  rewrite !length_map, !length_seq, Ha, Hg. split; reflexivity.
Qed.

Lemma handwritten_costs_on_two_samples :
  call cost1 0 0 two_samples_kernel =
    Some (negative_log_likelihood (samples_interleaved two_samples_interleaved) 0 0,
          two_samples_kernel) /\
  call cost2 0 0 two_samples_kernel =
    Some (negative_log_likelihood (samples_grouped two_samples_grouped) 0 0,
          two_samples_kernel) /\
  length (samples_interleaved two_samples_interleaved) = 2 /\
  length (samples_grouped two_samples_grouped) = 2.
Proof.
  apply (@handwritten_costs_are_negative_log_likelihoods counter_rng 2
           two_samples_interleaved two_samples_grouped 0 0 two_samples_kernel);
    reflexivity.
Defined.

(** ** Same samples, same cost *)

Lemma same_samples_lists (n : nat) (a g : ndarray) :
  shape a = (n, 2) -> shape g = (2, n) -> same_samples n a g ->
  samples_interleaved a = samples_grouped g.
Proof.
  intros Ha Hg H. unfold samples_interleaved, samples_grouped.
  rewrite Ha, Hg. cbn [fst snd].
  apply map_ext_in. intros i Hi. apply in_seq in Hi.
  rewrite (H i 0), (H i 1) by lia. reflexivity.
Qed.

(** C1 (amended).  For every pair of parameters, the cost function of the
    interleaved layout and the cost function of the grouped layout return
    the same value whenever the two datasets hold the same samples
    ([xy1[i][j] = xy2[j][i]]). *)
Theorem costs_agree_on_same_samples
    {G : BitGenerator} (n : nat) (a g : ndarray) (x y : R) (w : globals) :
  shape a = (n, 2) -> shape g = (2, n) ->
  g_xy1 w = Some a -> g_xy2 w = Some g ->
  same_samples n a g ->
  exists v, call cost1 x y w = Some (v, w) /\ call cost2 x y w = Some (v, w).
Proof.
  intros Ha Hg H1 H2 Hsame.
  exists (negative_log_likelihood (samples_interleaved a) x y). split.
  - apply cost1_value. exact H1.
  - rewrite (same_samples_lists n a g Ha Hg Hsame). apply cost2_value. exact H2.
Qed.

Lemma costs_agree_on_two_samples :
  exists v, call cost1 0 0 two_samples_kernel = Some (v, two_samples_kernel) /\
            call cost2 0 0 two_samples_kernel = Some (v, two_samples_kernel).
Proof.
  apply (@costs_agree_on_same_samples counter_rng 2
           two_samples_interleaved two_samples_grouped 0 0 two_samples_kernel);
    try reflexivity.
  intros i j Hi Hj.
  destruct i as [|[|i]]; [| | lia]; destruct j as [|[|j]]; try lia; reflexivity.
Defined.

(** ** The datasets of the notebook are two different draws *)

Lemma n_samples_pos : 0 < n_samples.
Proof. unfold n_samples. lia. Qed.

Lemma INR_n_samples : INR n_samples = 1000000%R.
Proof.
  unfold n_samples. rewrite INR_IZR_INZ, N_nat_Z. reflexivity.
Qed.

Lemma counter_advance (k st : nat) : @advance counter_rng k st = st + k.
Proof.
  revert st. induction k as [|k IH]; intros st.
  - simpl. lia.
  - change (@advance counter_rng (S k) st) with (@advance counter_rng k (S st)).
    rewrite IH. lia.
Qed.

Lemma counter_variate (k : nat) : @variate counter_rng 0 k = INR k.
Proof.
  unfold variate. rewrite counter_advance. reflexivity.
Qed.

Lemma step_advance (t k st : nat) : @advance (step_rng t) k st = st + k.
Proof.
  revert st. induction k as [|k IH]; intros st.
  - simpl. lia.
  - change (@advance (step_rng t) (S k) st) with (@advance (step_rng t) k (S st)).
    rewrite IH. lia.
Qed.

Lemma step_variate (t k : nat) :
  @variate (step_rng t) 0 k = (if k <? t then 0 else 1)%R.
Proof.
  unfold variate. rewrite step_advance. reflexivity.
Qed.

(** C2 (amended).  The first cell binds [xy1] to an array of shape n x 2
    and [xy2] to an array of shape 2 x n, both filled in storage order with
    consecutive variates of the one generator: [xy1[i][j]] is the variate
    number [2 i + j] of the seeded generator and [xy2[j][i]] is the variate
    number [2 n + j n + i]. *)
Theorem datasets_are_consecutive_draws
    {G : BitGenerator} (sd : Z) (n : nat) (w0 : globals) :
  exists w a g,
    cell_1 sd n w0 = Some (tt, w) /\
    g_xy1 w = Some a /\ g_xy2 w = Some g /\
    shape a = (n, 2) /\ shape g = (2, n) /\
    forall i j, i < n -> j < 2 ->
      item a i j = variate (default_rng sd) (2 * i + j) /\
      item g j i = variate (default_rng sd) (2 * n + j * n + i).
Proof.
  destruct (cell_1_runs sd n w0) as (w & a & g & Hw & H1 & H2 & _ & Ha & Hg & Hitems).
  exists w, a, g.
  repeat split; try assumption; apply Hitems; assumption.
Qed.

(** C2 as stated fails: with the generator that yields 0, 1, 2, ... and
    the seed and the sample count of the notebook, [xy1[0][0]] is 0 and
    [xy2[0][0]] is 2000000. *)
Lemma xy1_is_not_the_transpose_of_xy2 :
  exists w a g,
    @cell_1 counter_rng seed n_samples fresh = Some (tt, w) /\
    g_xy1 w = Some a /\ g_xy2 w = Some g /\
    item a 0 0 = 0%R /\ item g 0 0 = 2000000%R /\
    ~ same_samples n_samples a g.
Proof.
  destruct (@cell_1_runs counter_rng seed n_samples fresh)
    as (w & a & g & Hw & H1 & H2 & _ & _ & _ & Hitems).
  destruct (Hitems 0 0 n_samples_pos ltac:(lia)) as [Ea Eg].
  change (@default_rng counter_rng seed) with 0 in Ea, Eg.
  rewrite counter_variate in Ea, Eg.
  change (INR (2 * 0 + 0)) with 0%R in Ea.
  assert (Eg' : item g 0 0 = 2000000%R).
  { rewrite Eg. replace (2 * n_samples + 0 * n_samples + 0) with (2 * n_samples) by lia.
    rewrite mult_INR, INR_n_samples. change (INR 2) with (1 + 1)%R. lra. }
  exists w, a, g.
  split; [exact Hw |]. split; [exact H1 |]. split; [exact H2 |].
  split; [exact Ea |]. split; [exact Eg' |].
  intros Hsame. specialize (Hsame 0 0 n_samples_pos ltac:(lia)).
  rewrite Ea, Eg' in Hsame. lra.
Qed.

(** The negative log-likelihood of [n] copies of one sample. *)
Lemma nll_of_equal_samples (f : nat -> R * R) (n : nat) (p : R * R) (x y : R) :
  (forall i, i < n -> f i = p) ->
  negative_log_likelihood (map f (seq 0 n)) x y =
  (INR n * (LOG_2PI + (Rsqr (fst p - x) + Rsqr (snd p - y)) / 2))%R.
Proof.
  intros H. unfold negative_log_likelihood. rewrite map_map.
  rewrite (sum_map_const _ (log_density x y p)).
  - rewrite length_seq, log_density_value. lra.
  - intros i Hi. apply in_seq in Hi. rewrite H by lia. reflexivity.
Qed.

(** The notebook run on the generator whose first [2 n] variates are 0 and
    whose later ones are 1: [xy1] holds [n] times the sample (0, 0) and
    [xy2] holds [n] times the sample (1, 1). *)
Lemma step_kernel_costs :
  exists w g,
    @cell_1 (step_rng (2 * n_samples)) seed n_samples fresh = Some (tt, w) /\
    g_xy2 w = Some g /\ g_cost3 w = Some g /\
    call cost1 0 0 w = Some ((1000000 * LOG_2PI)%R, w) /\
    call cost2 0 0 w = Some ((1000000 * (LOG_2PI + 1))%R, w) /\
    negative_log_likelihood (samples_grouped g) 0 0 = (1000000 * (LOG_2PI + 1))%R.
Proof.
  destruct (@cell_1_runs (step_rng (2 * n_samples)) seed n_samples fresh)
    as (w & a & g & Hw & H1 & H2 & H3 & Ha & Hg & Hitems).
  change (@default_rng (step_rng (2 * n_samples)) seed) with 0 in Hitems.
  assert (Na : negative_log_likelihood (samples_interleaved a) 0 0
               = (1000000 * LOG_2PI)%R).
  { unfold samples_interleaved. rewrite Ha. cbn [fst].
    rewrite (nll_of_equal_samples _ _ (0, 0)%R).
    - rewrite INR_n_samples. cbn [fst snd]. unfold Rsqr. lra.
    - intros i Hi.
      destruct (Hitems i 0 Hi ltac:(lia)) as [E0 _].
      destruct (Hitems i 1 Hi ltac:(lia)) as [E1 _].
      rewrite E0, E1, !step_variate.
      destruct (Nat.ltb_spec (2 * i + 0) (2 * n_samples)); [| lia].
      destruct (Nat.ltb_spec (2 * i + 1) (2 * n_samples)); [| lia].
      reflexivity. }
  assert (Ng : negative_log_likelihood (samples_grouped g) 0 0
               = (1000000 * (LOG_2PI + 1))%R).
  { unfold samples_grouped. rewrite Hg. cbn [snd].
    rewrite (nll_of_equal_samples _ _ (1, 1)%R).
    - rewrite INR_n_samples. cbn [fst snd]. unfold Rsqr. lra.
    - intros i Hi.
      destruct (Hitems i 0 Hi ltac:(lia)) as [_ E0].
      destruct (Hitems i 1 Hi ltac:(lia)) as [_ E1].
      rewrite E0, E1, !step_variate.
      destruct (Nat.ltb_spec (2 * n_samples + 0 * n_samples + i) (2 * n_samples)); [lia |].
      destruct (Nat.ltb_spec (2 * n_samples + 1 * n_samples + i) (2 * n_samples)); [lia |].
      reflexivity. }
  exists w, g.
  split; [exact Hw |]. split; [exact H2 |]. split; [exact H3 |].
  split; [| split].
  - rewrite <- Na. apply cost1_value. exact H1.
  - rewrite <- Ng. apply cost2_value. exact H2.
  - exact Ng.
Qed.

(** C1 as stated fails: on that generator, with the seed and the sample
    count of the notebook, the two cost functions differ by 1000000 at the
    parameters (0, 0). *)
Lemma cost1_and_cost2_differ :
  exists w v1 v2,
    @cell_1 (step_rng (2 * n_samples)) seed n_samples fresh = Some (tt, w) /\
    call cost1 0 0 w = Some (v1, w) /\
    call cost2 0 0 w = Some (v2, w) /\
    (v2 - v1 = 1000000)%R.
Proof.
  destruct step_kernel_costs as (w & g & Hw & _ & _ & H1 & H2 & _).
  exists w, (1000000 * LOG_2PI)%R, (1000000 * (LOG_2PI + 1))%R.
  split; [exact Hw |]. split; [exact H1 |]. split; [exact H2 |]. lra.
Qed.

(** ** Determinism of the generation *)

(** C7.  Dataset generation is a function of the seed, the sample count and
    the layout: two runs of the first cell with the same seed and sample
    count, from whatever states of the kernel, produce the same buffer for
    a layout, of the shape of that layout. *)
Theorem generation_is_deterministic
    {G : BitGenerator} (sd : Z) (n : nat) (l : layout) (w1 w2 : globals) :
  exists a,
    generate sd n l w1 = Some a /\
    generate sd n l w2 = Some a /\
    shape a = match l with Interleaved => (n, 2) | Grouped => (2, n) end.
Proof.
  unfold generate. rewrite (cell_1_spec sd n w1), (cell_1_spec sd n w2).
  destruct l; cbn [dataset g_xy1 g_xy2]; eexists; repeat split.
Qed.

(** ** Nothing writes to the datasets *)

Section FrameFacts.
Context {G : BitGenerator}.

Lemma migrad_loop_frame (S_ : solver) (f : cost_function) (w : globals) :
  (forall x y, exists v, call f x y w = Some (v, w)) ->
  forall ncall s, exists r, migrad_loop S_ ncall f s w = Some (r, w).
Proof.
  intros Hf ncall. induction ncall as [|k IH]; intros s.
  - exists (fitted S_ s). reflexivity.
  - cbn [migrad_loop]. destruct (next_point S_ s) as [[x y]|].
    + destruct (Hf x y) as [v Hv]. unfold bind. rewrite Hv. apply IH.
    + exists (fitted S_ s). reflexivity.
Qed.

Lemma fit_frame (S_ : solver) (ncall : nat) (f : cost_function) (w : globals) :
  (forall x y, exists v, call f x y w = Some (v, w)) ->
  fit S_ ncall f w = Some (tt, w).
Proof.
  intros Hf. unfold fit, migrad, bind.
  destruct (migrad_loop_frame S_ f w Hf ncall (start S_ 0 0 (errordef f))) as [r Hr].
  rewrite Hr. reflexivity.
Qed.

Lemma call_frame (c : errordef_t) (w : globals) (a g d : ndarray) (f : cost_function) :
  g_xy1 w = Some a -> g_xy2 w = Some g -> g_cost3 w = Some d ->
  In f [cost1; cost2; cost3 c] ->
  forall x y, exists v, call f x y w = Some (v, w).
Proof.
  intros H1 H2 H3 Hf x y.
  destruct Hf as [<- | [<- | [<- | []]]]; eexists.
  - apply cost1_value. exact H1.
  - apply cost2_value. exact H2.
  - apply cost3_value. exact H3.
Qed.

End FrameFacts.

(** C6.  In a state of the kernel in which the datasets and the wrapper
    are bound, evaluating any of the three cost functions at any parameters
    and running a minimisation of any of them (with any solver and any
    budget of evaluations) succeeds and leaves the state as it was: [xy1]
    and [xy2] are bound to the same arrays, with the same elements. *)
Theorem datasets_are_read_only
    {G : BitGenerator} (c : errordef_t) (S_ : solver) (ncall : nat)
    (w : globals) (a g d : ndarray) (f : cost_function) :
  g_xy1 w = Some a -> g_xy2 w = Some g -> g_cost3 w = Some d ->
  In f [cost1; cost2; cost3 c] ->
  (forall x y, exists v w',
     call f x y w = Some (v, w') /\ w' = w /\
     g_xy1 w' = Some a /\ g_xy2 w' = Some g) /\
  (exists w',
     fit S_ ncall f w = Some (tt, w') /\ w' = w /\
     g_xy1 w' = Some a /\ g_xy2 w' = Some g).
Proof.
  intros H1 H2 H3 Hf.
  pose proof (call_frame c w a g d f H1 H2 H3 Hf) as Hcall.
  split.
  - intros x y. destruct (Hcall x y) as [v Hv].
    exists v, w. repeat split; assumption.
  - exists w. repeat split; try assumption.
    apply fit_frame. exact Hcall.
Qed.

Lemma two_samples_are_read_only :
  (forall x y, exists v w',
     call (cost3 LEAST_SQUARES) x y two_samples_kernel = Some (v, w') /\
     w' = two_samples_kernel /\
     g_xy1 w' = Some two_samples_interleaved /\
     g_xy2 w' = Some two_samples_grouped) /\
  (exists w',
     fit two_point_solver 5 (cost3 LEAST_SQUARES) two_samples_kernel = Some (tt, w') /\
     w' = two_samples_kernel /\
     g_xy1 w' = Some two_samples_interleaved /\
     g_xy2 w' = Some two_samples_grouped).
Proof.
  apply (@datasets_are_read_only counter_rng LEAST_SQUARES two_point_solver 5
           two_samples_kernel two_samples_interleaved two_samples_grouped
           two_samples_grouped (cost3 LEAST_SQUARES)); try reflexivity.
  right. right. left. reflexivity.
Defined.

(** ** The timed cells *)

Section TimeitFacts.
Context {G : BitGenerator}.
Variable duration : nat -> R.

(** One run of one loop: the body is executed once, the mean is the time
    of that execution and the standard deviation is 0. *)
Lemma timeit_once (body : M unit) (s : session) (w' : globals) :
  body (user_ns s) = Some (tt, w') ->
  timeit duration 1 1 body s =
  Some ((duration (executed s), 0%R),
        {| user_ns := w';
           wall_clock := wall_clock s + duration (executed s);
           executed := S (executed s) |}).
Proof.
  intros Hbody. unfold timeit, repeat_runs, loop, exec_body. rewrite Hbody.
  cbn [wall_clock map]. unfold stdev, mean. cbn [map sum fold_right length INR].
  f_equal. f_equal. f_equal.
  - field.
  - match goal with |- sqrt ?e = _ => replace e with 0%R end.
    + apply sqrt_0.
    + unfold Rsqr. field.
Qed.

End TimeitFacts.

(** C8 (amended).  Each timed cell invokes the minimisation exactly once
    (one run of one loop) and reports the mean and the standard deviation
    over that single run: the mean is the elapsed time of the run and the
    standard deviation is 0. *)
Theorem timed_cells_run_once
    {G : BitGenerator} (c : errordef_t) (S_ : solver) (ncall : nat)
    (duration : nat -> R) (s : session) (a g d : ndarray) :
  g_xy1 (user_ns s) = Some a -> g_xy2 (user_ns s) = Some g ->
  g_cost3 (user_ns s) = Some d ->
  forall cell,
    In cell [cell_2 S_ ncall duration; cell_3 S_ ncall duration;
             cell_4 c S_ ncall duration] ->
    exists s',
      cell s = Some ((duration (executed s), 0%R), s') /\
      executed s' = S (executed s) /\
      wall_clock s' = (wall_clock s + duration (executed s))%R /\
      user_ns s' = user_ns s.
Proof.
  intros H1 H2 H3 cell Hcell.
  assert (Hfit : forall f, In f [cost1; cost2; cost3 c] ->
                 fit S_ ncall f (user_ns s) = Some (tt, user_ns s)).
  { intros f Hf. apply fit_frame. exact (call_frame c _ a g d f H1 H2 H3 Hf). }
  eexists.
  destruct Hcell as [<- | [<- | [<- | []]]]; (split; [apply timeit_once |]).
  - apply Hfit. left. reflexivity.
  - repeat split.
  - apply Hfit. right. left. reflexivity.
  - repeat split.
  - apply Hfit. right. right. left. reflexivity.
  - repeat split.
Qed.

Lemma timed_cell_on_two_samples :
  exists s',
    cell_2 two_point_solver 5 (fun _ => 3%R)
      {| user_ns := two_samples_kernel; wall_clock := 0; executed := 0 |}
    = Some ((3%R, 0%R), s') /\
    executed s' = 1 /\
    wall_clock s' = (0 + 3)%R /\
    user_ns s' = two_samples_kernel.
Proof.
  apply (@timed_cells_run_once counter_rng LIKELIHOOD two_point_solver 5
           (fun _ => 3%R)
           {| user_ns := two_samples_kernel; wall_clock := 0; executed := 0 |}
           two_samples_interleaved two_samples_grouped two_samples_grouped);
    try reflexivity.
  left. reflexivity.
Defined.

(** C8 as stated fails: after the first cell (on the generator 0, 1, 2, ...,
    with the seed and the sample count of the notebook), the timed cell of
    [cost1] executes the minimisation once, not more than once, and the
    standard deviation it reports is that of a single run, 0. *)
Lemma timed_cell_does_not_repeat :
  exists w r s',
    @cell_1 counter_rng seed n_samples fresh = Some (tt, w) /\
    cell_2 two_point_solver 5 (fun _ => 3%R)
      {| user_ns := w; wall_clock := 0; executed := 0 |} = Some (r, s') /\
    executed s' = 1 /\ ~ 1 < executed s' /\ r = (3%R, 0%R).
Proof.
  destruct (@cell_1_runs counter_rng seed n_samples fresh)
    as (w & a & g & Hw & H1 & H2 & H3 & _).
  exists w. eexists. eexists.
  split; [exact Hw |].
  split.
  - unfold cell_2. apply timeit_once. apply fit_frame.
    apply (call_frame LIKELIHOOD _ a g g cost1 H1 H2 H3). left. reflexivity.
  - cbn [executed]. repeat split. lia.
Qed.

(** ** Error-scale conventions *)

Lemma LOG_2PI_pos : (0 < LOG_2PI)%R.
Proof.
  unfold LOG_2PI. rewrite <- ln_1. apply ln_increasing; [lra |].
  pose proof PI2_1. lra.
Qed.

Lemma nll_pos (l : list (R * R)) (x y : R) :
  l <> [] -> (0 < negative_log_likelihood l x y)%R.
Proof.
  intros Hl.
  assert (Hge : forall l', (0 <= negative_log_likelihood l' x y)%R).
  { induction l' as [|p l' IH]; unfold negative_log_likelihood in *.
    - simpl. lra.
    - cbn [map]. rewrite sum_cons, log_density_value.
      pose proof LOG_2PI_pos.
      pose proof (Rle_0_sqr (fst p - x)). pose proof (Rle_0_sqr (snd p - y)). lra. }
  destruct l as [|p l]; [congruence |].
  specialize (Hge l). unfold negative_log_likelihood in *.
  cbn [map]. rewrite sum_cons, log_density_value.
  pose proof LOG_2PI_pos.
  pose proof (Rle_0_sqr (fst p - x)). pose proof (Rle_0_sqr (snd p - y)). lra.
Qed.

Lemma samples_nonempty (n : nat) (f : nat -> R * R) :
  0 < n -> map f (seq 0 n) <> [].
Proof.
  intros Hn. destruct n; [lia | discriminate].
Qed.

(** Over at least one sample a plain negative log-likelihood and twice one
    are different functions, so a consistent flag is also the only one
    that fits the values. *)
Lemma flag_determined {G : BitGenerator} (f : cost_function)
    (l : list (R * R)) (w : globals) :
  l <> [] -> flag_consistent f l w ->
  (returns_plain f l w -> errordef f = LIKELIHOOD) /\
  (returns_twice f l w -> errordef f = LEAST_SQUARES).
Proof.
  intros Hl Hc. pose proof (nll_pos l 0 0 Hl) as Hpos.
  unfold flag_consistent in Hc.
  destruct (errordef f); split; intros H; try reflexivity; exfalso;
    specialize (Hc 0%R 0%R); rewrite (H 0%R 0%R) in Hc;
    injection Hc as Hc; lra.
Qed.

(** C5.  After the first cell, each of the three cost functions handed to
    the minimiser carries a flag that agrees with what it computes over its
    dataset: [cost1] and [cost2] are flagged with the likelihood convention
    and return the plain negative log-likelihood, and the wrapper [cost3]
    carries the flag of its class and returns the plain negative
    log-likelihood under the likelihood convention and twice that under the
    least-squares convention.  With at least one sample, a function that
    returns the plain negative log-likelihood is flagged with the likelihood
    convention and one that returns twice that with the least-squares
    convention. *)
Theorem flags_match_conventions
    {G : BitGenerator} (c : errordef_t) (sd : Z) (n : nat) (w0 : globals) :
  exists w a g,
    cell_1 sd n w0 = Some (tt, w) /\
    g_xy1 w = Some a /\ g_xy2 w = Some g /\
    errordef cost1 = LIKELIHOOD /\ errordef cost2 = LIKELIHOOD /\
    errordef (cost3 c) = c /\
    forall f samples,
      In (f, samples) [(cost1, samples_interleaved a);
                       (cost2, samples_grouped g);
                       (cost3 c, samples_grouped g)] ->
      flag_consistent f samples w /\
      (0 < n ->
       (returns_plain f samples w -> errordef f = LIKELIHOOD) /\
       (returns_twice f samples w -> errordef f = LEAST_SQUARES)).
Proof.
  destruct (cell_1_runs sd n w0) as (w & a & g & Hw & H1 & H2 & H3 & Ha & Hg & _).
  exists w, a, g.
  split; [exact Hw |]. split; [exact H1 |]. split; [exact H2 |].
  do 3 (split; [reflexivity |]).
  intros f samples Hin.
  assert (Hflag : flag_consistent f samples w).
  { destruct Hin as [E | [E | [E | []]]]; injection E as <- <-.
    - intros x y. apply cost1_value. exact H1.
    - intros x y. apply cost2_value. exact H2.
    - unfold flag_consistent. destruct c; intros x y.
      + rewrite (cost3_value LIKELIHOOD _ g x y H3). cbn [nll_scale].
        f_equal. f_equal. lra.
      + exact (cost3_value LEAST_SQUARES _ g x y H3). }
  split; [exact Hflag |].
  intros Hn. apply flag_determined; [| exact Hflag].
  destruct Hin as [E | [E | [E | []]]]; injection E as <- <-.
  - unfold samples_interleaved. rewrite Ha. apply samples_nonempty. exact Hn.
  - unfold samples_grouped. rewrite Hg. apply samples_nonempty. exact Hn.
  - unfold samples_grouped. rewrite Hg. apply samples_nonempty. exact Hn.
Qed.

(** ** The wrapper against the hand-written cost function *)

Section WrapperFacts.
Context {G : BitGenerator}.

(** Two cost functions whose values differ by a positive factor have the
    same minimising parameters. *)
Lemma minimises_scale (f1 f2 : cost_function) (F : R -> R -> R) (k : R)
    (w : globals) :
  (0 < k)%R ->
  (forall x y, call f1 x y w = Some (F x y, w)) ->
  (forall x y, call f2 x y w = Some ((k * F x y)%R, w)) ->
  forall x y, minimises f1 w x y <-> minimises f2 w x y.
Proof.
  intros Hk H1 H2 x y. unfold minimises. split.
  - intros (v & Hv & Hmin). exists (k * F x y)%R. split; [apply H2 |].
    intros x' y'. exists (k * F x' y')%R. split; [apply H2 |].
    destruct (Hmin x' y') as (v' & Hv' & Hle).
    rewrite H1 in Hv, Hv'. injection Hv as <-. injection Hv' as <-.
    apply Rmult_le_compat_l; lra.
  - intros (v & Hv & Hmin). exists (F x y). split; [apply H1 |].
    intros x' y'. exists (F x' y'). split; [apply H1 |].
    destruct (Hmin x' y') as (v' & Hv' & Hle).
    rewrite H2 in Hv, Hv'. injection Hv as <-. injection Hv' as <-.
    apply (Rmult_le_reg_l k); assumption.
Qed.

End WrapperFacts.

(** C10.  After the first cell, for every pair of parameters the wrapper
    [cost3] of a class that follows the least-squares convention carries
    the least-squares flag and returns exactly twice the value of the
    hand-written [cost2] over the same dataset [xy2]; the two values differ
    as soon as there is a sample, and the two cost functions are minimised
    by the same parameters. *)
Theorem wrapper_is_twice_cost2
    {G : BitGenerator} (sd : Z) (n : nat) (w0 : globals) :
  exists w,
    cell_1 sd n w0 = Some (tt, w) /\
    g_cost3 w = g_xy2 w /\
    errordef (cost3 LEAST_SQUARES) = LEAST_SQUARES /\
    (forall x y, exists v,
       call cost2 x y w = Some (v, w) /\
       call (cost3 LEAST_SQUARES) x y w = Some ((2 * v)%R, w) /\
       (0 < n -> (2 * v)%R <> v)) /\
    (forall x y, minimises cost2 w x y <-> minimises (cost3 LEAST_SQUARES) w x y).
Proof.
  destruct (cell_1_runs sd n w0) as (w & a & g & Hw & H1 & H2 & H3 & _ & Hg & _).
  exists w. split; [exact Hw |].
  split; [rewrite H2, H3; reflexivity |].
  split; [reflexivity |].
  split.
  - intros x y. eexists. split; [| split].
    + apply cost2_value. exact H2.
    + exact (cost3_value LEAST_SQUARES _ g x y H3).
    + intros Hn.
      assert (Hpos : (0 < negative_log_likelihood (samples_grouped g) x y)%R).
      { apply nll_pos. unfold samples_grouped. rewrite Hg.
        apply samples_nonempty. exact Hn. }
      lra.
  - apply (minimises_scale cost2 (cost3 LEAST_SQUARES)
             (negative_log_likelihood (samples_grouped g)) 2).
    + lra.
    + intros x y. apply cost2_value. exact H2.
    + intros x y. exact (cost3_value LEAST_SQUARES _ g x y H3).
Qed.

(** C3 (amended).  After the first cell, for every pair of parameters the
    wrapper [cost3] returns the value of the hand-written [cost2] multiplied
    by the scale of the convention its class follows: the same value under
    the likelihood convention, twice the value under the least-squares
    convention. *)
Theorem wrapper_is_scaled_cost2
    {G : BitGenerator} (c : errordef_t) (sd : Z) (n : nat) (w0 : globals) :
  exists w,
    cell_1 sd n w0 = Some (tt, w) /\
    forall x y, exists v,
      call cost2 x y w = Some (v, w) /\
      call (cost3 c) x y w = Some ((nll_scale c * v)%R, w) /\
      (c = LIKELIHOOD -> call (cost3 c) x y w = Some (v, w)).
Proof.
  destruct (cell_1_runs sd n w0) as (w & a & g & Hw & H1 & H2 & H3 & _).
  exists w. split; [exact Hw |].
  intros x y. exists (negative_log_likelihood (samples_grouped g) x y).
  split; [apply cost2_value; exact H2 |].
  split; [exact (cost3_value c _ g x y H3) |].
  intros ->. rewrite (cost3_value LIKELIHOOD _ g x y H3). cbn [nll_scale].
  f_equal. f_equal. lra.
Qed.

(** C3 as stated fails when the class follows the least-squares
    convention: on the generator whose first 2000000 variates are 0 and
    whose later ones are 1, with the seed and the sample count of the
    notebook, the wrapper returns at the parameters (0, 0) twice the value
    of [cost2], more than 1000000 above it. *)
Lemma wrapper_and_cost2_differ :
  exists w v2 v3,
    @cell_1 (step_rng (2 * n_samples)) seed n_samples fresh = Some (tt, w) /\
    call cost2 0 0 w = Some (v2, w) /\
    call (cost3 LEAST_SQUARES) 0 0 w = Some (v3, w) /\
    (v3 = 2 * v2)%R /\ (v3 - v2 > 1000000)%R.
Proof.
  destruct step_kernel_costs as (w & g & Hw & H2 & H3 & _ & Hc2 & Ng).
  exists w, (1000000 * (LOG_2PI + 1))%R, (2 * (1000000 * (LOG_2PI + 1)))%R.
  split; [exact Hw |]. split; [exact Hc2 |].
  split.
  - rewrite (cost3_value LEAST_SQUARES w g 0 0 H3), Ng. reflexivity.
  - pose proof LOG_2PI_pos. split; lra.
Qed.

(** ** Where the cost functions are minimal *)

Lemma nll_expanded (l : list (R * R)) (x y : R) :
  negative_log_likelihood l x y =
  (INR (length l) * LOG_2PI
   + (sum (map (fun p => fst p * fst p) l) - 2 * x * sum (map fst l)
      + INR (length l) * (x * x)) / 2
   + (sum (map (fun p => snd p * snd p) l) - 2 * y * sum (map snd l)
      + INR (length l) * (y * y)) / 2)%R.
Proof.
  unfold negative_log_likelihood. induction l as [|p l IH].
  - simpl. lra.
  - apply Ropp_eq_compat in IH. rewrite Ropp_involutive in IH.
    cbn [map]. rewrite !sum_cons, IH.
    change (length (p :: l)) with (S (length l)).
    rewrite S_INR, log_density_value. unfold Rsqr. field.
Qed.

(** The negative log-likelihood is its value at the mean of the samples
    plus half the number of samples times the squared distance to it. *)
Lemma nll_around_mean (l : list (R * R)) (x y : R) :
  l <> [] ->
  negative_log_likelihood l x y =
  (negative_log_likelihood l (fst (sample_mean l)) (snd (sample_mean l))
   + INR (length l) / 2
     * (Rsqr (x - fst (sample_mean l)) + Rsqr (y - snd (sample_mean l))))%R.
Proof.
  intros Hl.
  assert (HL : INR (length l) <> 0%R).
  { apply not_0_INR. destruct l; [congruence | discriminate]. }
  rewrite !nll_expanded. unfold sample_mean, Rsqr. cbn [fst snd].
  field. exact HL.
Qed.




(** ** How the two datasets lie in memory *)

Lemma map_seq_from (f : nat -> R) (s len : nat) :
  map f (seq s len) = map (fun i => f (s + i)) (seq 0 len).
Proof.
  revert s. induction len as [|len IH]; intros s.
  - reflexivity.
  - cbn [seq map]. rewrite IH, <- seq_shift, map_map. f_equal.
    + f_equal. lia.
    + apply map_ext. intros i. f_equal. lia.
Qed.

Lemma map_seq_pairs (f : nat -> R) (n : nat) :
  map f (seq 0 (n * 2)) =
  flat_map (fun i => [f (i * 2 + 0); f (i * 2 + 1)]) (seq 0 n).
Proof.
  induction n as [|n IH].
  - reflexivity.
  - replace (S n * 2) with (n * 2 + 2) by lia.
    rewrite seq_app, map_app, IH, (seq_S n 0), flat_map_app.
    f_equal. cbn [seq map flat_map app Nat.add].
    rewrite Nat.add_0_r, Nat.add_1_r. reflexivity.
Qed.

Lemma map_seq_halves (f : nat -> R) (n : nat) :
  map f (seq 0 (2 * n)) =
  map (fun i => f (0 * n + i)) (seq 0 n) ++ map (fun i => f (1 * n + i)) (seq 0 n).
Proof.
  replace (2 * n) with (n + n) by lia.
  rewrite seq_app, map_app. f_equal.
  rewrite (map_seq_from f (0 + n) n). apply map_ext. intros i. f_equal. lia.
Qed.

Lemma flat_map_pairs (h : nat -> R * R) (l : list nat) :
  flat_map (fun p => [fst p; snd p]) (map h l) =
  flat_map (fun i => [fst (h i); snd (h i)]) l.
Proof.
  induction l as [|i l IH].
  - reflexivity.
  - cbn [map flat_map]. rewrite IH. reflexivity.
Qed.

(** The samples of a fresh array of shape n x 2, and of one of shape 2 x n,
    in terms of the values the buffer was filled with. *)
Lemma samples_of_fresh_interleaved (f : nat -> R) (n : nat) :
  samples_interleaved (c_contiguous (map f (seq 0 (n * 2))) (n, 2)) =
  map (fun i => (f (i * 2 + 0), f (i * 2 + 1))) (seq 0 n).
Proof.
  unfold samples_interleaved. cbn [shape c_contiguous fst].
  apply map_ext_in. intros i Hi. apply in_seq in Hi.
  rewrite !item_c_contiguous by lia. reflexivity.
Qed.

Lemma samples_of_fresh_grouped (f : nat -> R) (n : nat) :
  samples_grouped (c_contiguous (map f (seq 0 (2 * n))) (2, n)) =
  map (fun i => (f (0 * n + i), f (1 * n + i))) (seq 0 n).
Proof.
  unfold samples_grouped. cbn [shape c_contiguous snd].
  apply map_ext_in. intros i Hi. apply in_seq in Hi.
  rewrite !item_c_contiguous by lia. reflexivity.
Qed.

(** X2.  After the first cell the buffer of [xy1] holds the samples one
    after the other, x0, y0, x1, y1, ..., and the buffer of [xy2] holds all
    the first coordinates and then all the second ones, x0, x1, ..., y0,
    y1, ...; each buffer has [2 n] elements, and the view [xy2.T] that
    [cost2] reads is on the buffer of [xy2] itself. *)
Theorem datasets_memory_layout
    {G : BitGenerator} (sd : Z) (n : nat) (w0 : globals) :
  exists w a g,
    cell_1 sd n w0 = Some (tt, w) /\
    g_xy1 w = Some a /\ g_xy2 w = Some g /\
    buffer a = flat_map (fun p => [fst p; snd p]) (samples_interleaved a) /\
    buffer g = map fst (samples_grouped g) ++ map snd (samples_grouped g) /\
    length (buffer a) = 2 * n /\ length (buffer g) = 2 * n /\
    buffer (T g) = buffer g.
Proof.
  eexists. eexists. eexists. split; [apply cell_1_spec |].
  cbn [g_xy1 g_xy2]. split; [reflexivity |]. split; [reflexivity |].
  split; [| split; [| split; [| split]]].
  - rewrite samples_of_fresh_interleaved, flat_map_pairs.
    cbn [buffer c_contiguous fst snd]. apply map_seq_pairs.
  - rewrite samples_of_fresh_grouped, !map_map.
    cbn [buffer c_contiguous fst snd]. apply map_seq_halves.
  - cbn [buffer c_contiguous]. rewrite length_map, length_seq. lia.
  - cbn [buffer c_contiguous]. rewrite length_map, length_seq. reflexivity.
  - reflexivity.
Qed.

(** ** The shape of the hand-written cost functions *)

Lemma length_samples_interleaved (n : nat) (a : ndarray) :
  shape a = (n, 2) -> length (samples_interleaved a) = n.
Proof.
  intros Ha. unfold samples_interleaved.
  rewrite length_map, length_seq, Ha. reflexivity.
Qed.

Lemma length_samples_grouped (n : nat) (g : ndarray) :
  shape g = (2, n) -> length (samples_grouped g) = n.
Proof.
  intros Hg. unfold samples_grouped.
  rewrite length_map, length_seq, Hg. reflexivity.
Qed.

Lemma nonempty_of_length (l : list (R * R)) (n : nat) :
  length l = n -> 0 < n -> l <> [].
Proof.
  intros Hl Hn E. rewrite E in Hl. simpl in Hl. lia.
Qed.

(** X3.  For a dataset of at least one sample, each hand-written cost
    function exceeds its value at the mean of the samples by exactly half
    the number of samples times the squared distance of the parameters to
    that mean. *)
Theorem handwritten_costs_grow_quadratically
    {G : BitGenerator} (n : nat) (a g : ndarray) (w : globals) (x y : R) :
  0 < n -> shape a = (n, 2) -> shape g = (2, n) ->
  g_xy1 w = Some a -> g_xy2 w = Some g ->
  (exists v vmin,
     call cost1 x y w = Some (v, w) /\
     call cost1 (fst (sample_mean (samples_interleaved a)))
                (snd (sample_mean (samples_interleaved a))) w = Some (vmin, w) /\
     v = (vmin + INR n / 2
                 * (Rsqr (x - fst (sample_mean (samples_interleaved a)))
                    + Rsqr (y - snd (sample_mean (samples_interleaved a)))))%R) /\
  (exists v vmin,
     call cost2 x y w = Some (v, w) /\
     call cost2 (fst (sample_mean (samples_grouped g)))
                (snd (sample_mean (samples_grouped g))) w = Some (vmin, w) /\
     v = (vmin + INR n / 2
                 * (Rsqr (x - fst (sample_mean (samples_grouped g)))
                    + Rsqr (y - snd (sample_mean (samples_grouped g)))))%R).
Proof.
  intros Hn Ha Hg H1 H2.
  pose proof (length_samples_interleaved n a Ha) as La.
  pose proof (length_samples_grouped n g Hg) as Lg.
  split.
  - eexists. eexists. split; [apply cost1_value; exact H1 |].
    split; [apply cost1_value; exact H1 |].
    rewrite <- La at 1. apply nll_around_mean.
    exact (nonempty_of_length _ n La Hn).
  - eexists. eexists. split; [apply cost2_value; exact H2 |].
    split; [apply cost2_value; exact H2 |].
    rewrite <- Lg at 1. apply nll_around_mean.
    exact (nonempty_of_length _ n Lg Hn).
Qed.

Lemma two_samples_grow_quadratically :
  (exists v vmin,
     call cost1 5 7 two_samples_kernel = Some (v, two_samples_kernel) /\
     call cost1 (fst (sample_mean (samples_interleaved two_samples_interleaved)))
                (snd (sample_mean (samples_interleaved two_samples_interleaved)))
                two_samples_kernel = Some (vmin, two_samples_kernel) /\
     v = (vmin + INR 2 / 2
                 * (Rsqr (5 - fst (sample_mean (samples_interleaved two_samples_interleaved)))
                    + Rsqr (7 - snd (sample_mean (samples_interleaved two_samples_interleaved)))))%R) /\
  (exists v vmin,
     call cost2 5 7 two_samples_kernel = Some (v, two_samples_kernel) /\
     call cost2 (fst (sample_mean (samples_grouped two_samples_grouped)))
                (snd (sample_mean (samples_grouped two_samples_grouped)))
                two_samples_kernel = Some (vmin, two_samples_kernel) /\
     v = (vmin + INR 2 / 2
                 * (Rsqr (5 - fst (sample_mean (samples_grouped two_samples_grouped)))
                    + Rsqr (7 - snd (sample_mean (samples_grouped two_samples_grouped)))))%R).
Proof.
  apply (@handwritten_costs_grow_quadratically counter_rng 2
           two_samples_interleaved two_samples_grouped two_samples_kernel 5 7);
    try reflexivity.
  lia.
Defined.

Lemma nll_lower_bound (l : list (R * R)) (x y : R) :
  (INR (length l) * LOG_2PI <= negative_log_likelihood l x y)%R.
Proof.
  unfold negative_log_likelihood. induction l as [|p l IH].
  - simpl. lra.
  - cbn [map]. rewrite sum_cons, log_density_value.
    change (length (p :: l)) with (S (length l)). rewrite S_INR.
    pose proof (Rle_0_sqr (fst p - x)). pose proof (Rle_0_sqr (snd p - y)).
    lra.
Qed.

(** X4.  The hand-written cost functions are bounded below: over [n]
    samples they return at least [n] times the logarithm of [2 pi], so
    never a negative value, and a positive one as soon as there is a
    sample. *)
Theorem handwritten_costs_bounded_below
    {G : BitGenerator} (n : nat) (a g : ndarray) (w : globals) (x y : R) :
  shape a = (n, 2) -> shape g = (2, n) ->
  g_xy1 w = Some a -> g_xy2 w = Some g ->
  exists v1 v2,
    call cost1 x y w = Some (v1, w) /\ call cost2 x y w = Some (v2, w) /\
    (INR n * ln (2 * PI) <= v1)%R /\ (INR n * ln (2 * PI) <= v2)%R /\
    (0 <= v1)%R /\ (0 <= v2)%R /\
    (0 < n -> (0 < v1)%R /\ (0 < v2)%R).
Proof.
  intros Ha Hg H1 H2.
  pose proof (length_samples_interleaved n a Ha) as La.
  pose proof (length_samples_grouped n g Hg) as Lg.
  pose proof (nll_lower_bound (samples_interleaved a) x y) as B1.
  pose proof (nll_lower_bound (samples_grouped g) x y) as B2.
  rewrite La in B1. rewrite Lg in B2. unfold LOG_2PI in B1, B2.
  pose proof LOG_2PI_pos as Hpos. unfold LOG_2PI in Hpos.
  pose proof (pos_INR n) as Hn0.
  pose proof (Rmult_le_pos _ _ Hn0 (Rlt_le _ _ Hpos)) as Hprod.
  eexists. eexists.
  split; [apply cost1_value; exact H1 |].
  split; [apply cost2_value; exact H2 |].
  split; [exact B1 |]. split; [exact B2 |].
  split; [lra |]. split; [lra |].
  intros Hn. apply lt_0_INR in Hn.
  pose proof (Rmult_lt_0_compat _ _ Hn Hpos). split; lra.
Qed.

Lemma two_samples_bounded_below :
  exists v1 v2,
    call cost1 5 7 two_samples_kernel = Some (v1, two_samples_kernel) /\
    call cost2 5 7 two_samples_kernel = Some (v2, two_samples_kernel) /\
    (INR 2 * ln (2 * PI) <= v1)%R /\ (INR 2 * ln (2 * PI) <= v2)%R /\
    (0 <= v1)%R /\ (0 <= v2)%R /\
    (0 < 2 -> (0 < v1)%R /\ (0 < v2)%R).
Proof.
  apply (@handwritten_costs_bounded_below counter_rng 2
           two_samples_interleaved two_samples_grouped two_samples_kernel 5 7);
    reflexivity.
Defined.

(** X5.  With a sample count of 0 the first cell still runs and binds two
    empty datasets; both hand-written cost functions then return 0 at all
    parameters, so every pair of parameters minimises them: the minimum is
    unique only from one sample on. *)
Theorem no_samples_no_unique_minimum
    {G : BitGenerator} (sd : Z) (w0 : globals) :
  exists w a g,
    cell_1 sd 0 w0 = Some (tt, w) /\
    g_xy1 w = Some a /\ g_xy2 w = Some g /\
    buffer a = [] /\ buffer g = [] /\
    forall x y,
      (exists v, call cost1 x y w = Some (v, w) /\ v = 0%R) /\
      (exists v, call cost2 x y w = Some (v, w) /\ v = 0%R) /\
      minimises cost1 w x y /\ minimises cost2 w x y.
Proof.
  destruct (cell_1_runs sd 0 w0) as (w & a & g & Hw & H1 & H2 & _ & Ha & Hg & _).
  assert (Ea : samples_interleaved a = []).
  { unfold samples_interleaved. rewrite Ha. reflexivity. }
  assert (Eg : samples_grouped g = []).
  { unfold samples_grouped. rewrite Hg. reflexivity. }
  assert (V1 : forall x y, call cost1 x y w = Some ((- 0)%R, w)).
  { intros x y. rewrite (cost1_value w a x y H1), Ea. reflexivity. }
  assert (V2 : forall x y, call cost2 x y w = Some ((- 0)%R, w)).
  { intros x y. rewrite (cost2_value w g x y H2), Eg. reflexivity. }
  pose proof (cell_1_spec sd 0 w0) as Hspec. cbv zeta in Hspec.
  rewrite Hspec in Hw. injection Hw as Hw. subst w.
  cbn [g_xy1 g_xy2] in H1, H2. injection H1 as <-. injection H2 as <-.
  eexists. eexists. eexists.
  split; [exact Hspec |]. split; [reflexivity |]. split; [reflexivity |].
  split; [reflexivity |]. split; [reflexivity |].
  intros x y.
  split; [exists (- 0)%R; split; [apply V1 | lra] |].
  split; [exists (- 0)%R; split; [apply V2 | lra] |].
  split.
  - exists (- 0)%R. split; [apply V1 |].
    intros x' y'. exists (- 0)%R. split; [apply V1 | lra].
  - exists (- 0)%R. split; [apply V2 |].
    intros x' y'. exists (- 0)%R. split; [apply V2 | lra].
Qed.

(** ** What the hand-written cost functions read *)


(** ** Re-running the timed cells *)

Section RunFacts.
Context {G : BitGenerator}.
Variable c : errordef_t.
Variable S_ : solver.
Variable ncall : nat.
Variable duration : nat -> R.

Lemma timed_cell_step (s : session) (a g d : ndarray)
    (cell : session -> option ((R * R) * session)) :
  g_xy1 (user_ns s) = Some a -> g_xy2 (user_ns s) = Some g ->
  g_cost3 (user_ns s) = Some d ->
  In cell [cell_2 S_ ncall duration; cell_3 S_ ncall duration;
           cell_4 c S_ ncall duration] ->
  cell s = Some ((duration (executed s), 0%R),
                 {| user_ns := user_ns s;
                    wall_clock := wall_clock s + duration (executed s);
                    executed := S (executed s) |}).
Proof.
  intros H1 H2 H3 Hcell.
  assert (Hfit : forall f, In f [cost1; cost2; cost3 c] ->
                 fit S_ ncall f (user_ns s) = Some (tt, user_ns s)).
  { intros f Hf. apply fit_frame. exact (call_frame c _ a g d f H1 H2 H3 Hf). }
  destruct Hcell as [<- | [<- | [<- | []]]]; apply timeit_once; apply Hfit.
  - left. reflexivity.
  - right. left. reflexivity.
  - right. right. left. reflexivity.
Qed.

End RunFacts.

(** X7.  The timed cells can be re-run any number of times and in any
    order: from a state in which the datasets and the wrapper are bound,
    every run of a sequence of timed cells succeeds, each cell executes its
    minimisation once and reports the time of that execution with a
    standard deviation of 0, and the kernel's names are left as they were,
    so every cell is timed on the same datasets. *)
Theorem timed_cells_in_any_order
    {G : BitGenerator} (c : errordef_t) (S_ : solver) (ncall : nat)
    (duration : nat -> R) (a g d : ndarray)
    (cells : list (session -> option ((R * R) * session))) (s : session) :
  g_xy1 (user_ns s) = Some a -> g_xy2 (user_ns s) = Some g ->
  g_cost3 (user_ns s) = Some d ->
  (forall cell, In cell cells ->
     In cell [cell_2 S_ ncall duration; cell_3 S_ ncall duration;
              cell_4 c S_ ncall duration]) ->
  exists s',
    run_cells cells s =
      Some (map (fun k => (duration (executed s + k), 0%R)) (seq 0 (length cells)), s') /\
    user_ns s' = user_ns s /\
    executed s' = executed s + length cells.
Proof.
  revert s. induction cells as [|cell rest IH]; intros s H1 H2 H3 Hin.
  - exists s. cbn [run_cells length seq map]. repeat split. lia.
  - pose proof (timed_cell_step c S_ ncall duration s a g d cell H1 H2 H3
                  (Hin cell (or_introl eq_refl))) as Hstep.
    destruct (IH {| user_ns := user_ns s;
                    wall_clock := wall_clock s + duration (executed s);
                    executed := S (executed s) |})
      as (s' & Hrun & Hns & Hex).
    + exact H1.
    + exact H2.
    + exact H3.
    + intros cell' Hc'. apply Hin. right. exact Hc'.
    + exists s'. cbn [run_cells]. rewrite Hstep, Hrun.
      cbn [user_ns executed] in *. split; [| split].
      * cbn [length seq map]. rewrite Nat.add_0_r. f_equal. f_equal. f_equal.
        rewrite <- seq_shift, map_map. apply map_ext. intros k.
        f_equal. f_equal. lia.
      * exact Hns.
      * rewrite Hex. cbn [length]. lia.
Qed.

Lemma timed_cells_rerun_on_two_samples :
  exists s',
    run_cells [cell_3 two_point_solver 5 (fun k => INR k);
               cell_2 two_point_solver 5 (fun k => INR k);
               cell_3 two_point_solver 5 (fun k => INR k)]
      {| user_ns := two_samples_kernel; wall_clock := 0; executed := 0 |} =
      Some (map (fun k => (INR (0 + k), 0%R)) (seq 0 3), s') /\
    user_ns s' = two_samples_kernel /\
    executed s' = 0 + 3.
Proof.
  apply (@timed_cells_in_any_order counter_rng LIKELIHOOD two_point_solver 5
           (fun k => INR k) two_samples_interleaved two_samples_grouped
           two_samples_grouped
           [cell_3 two_point_solver 5 (fun k => INR k);
            cell_2 two_point_solver 5 (fun k => INR k);
            cell_3 two_point_solver 5 (fun k => INR k)]
           {| user_ns := two_samples_kernel; wall_clock := 0; executed := 0 |});
    try reflexivity.
  intros cell [<- | [<- | [<- | []]]].
  - right. left. reflexivity.
  - left. reflexivity.
  - right. left. reflexivity.
Defined.
